(** * ticktock: the generated documentation search index

    The repository snapshot holds one file, [search-index.js]: a three
    statement script that builds the [searchIndex] table of the [ticktock]
    crate and hands it to the documentation browser, followed by the text of
    the crate's README.  This development embeds the script (its literal as a
    JSON tree, its statements with a small store-passing semantics) and the
    README (as its lines), and checks the statements the specification makes
    about them. *)

From Stdlib Require Import ZArith String Ascii List Bool Lia.
From stdpp Require Import base option list gmap strings.
Import ListNotations.

Local Open Scope Z_scope.
Local Open Scope string_scope.
Local Open Scope list_scope.
Local Set Warnings "-register-all".

(* ===================================================================== *)
(** ** JSON values, as the object literal of the script writes them *)
(* ===================================================================== *)

Inductive json : Type :=
| JNull
| JNum (n : Z)
| JStr (s : string)
| JArr (elems : list json)
| JObj (fields : list (string * json)).

(** [o[k]] on a value read from the literal: the first field named [k]. *)
Fixpoint assoc {A : Type} (k : string) (fs : list (string * A)) : option A :=
  match fs with
  | [] => None
  | (k', v) :: fs' => if String.eqb k k' then Some v else assoc k fs'
  end.

Definition get_field (k : string) (j : json) : option json :=
  match j with
  | JObj fs => assoc k fs
  | _ => None
  end.

Definition as_array (j : json) : option (list json) :=
  match j with
  | JArr l => Some l
  | _ => None
  end.

Definition as_string (j : json) : option string :=
  match j with
  | JStr s => Some s
  | _ => None
  end.

Definition as_number (j : json) : option Z :=
  match j with
  | JNum n => Some n
  | _ => None
  end.

Definition is_string (j : json) : bool :=
  match j with JStr _ => true | _ => false end.

Definition is_array (j : json) : bool :=
  match j with JArr _ => true | _ => false end.

Definition is_object (j : json) : bool :=
  match j with JObj _ => true | _ => false end.

(** [o[k] = v] on the fields of an object: an existing key keeps its place,
    a new key goes last (JavaScript objects keep insertion order). *)
Fixpoint set_field {A : Type} (k : string) (v : A) (fs : list (string * A))
  : list (string * A) :=
  match fs with
  | [] => [(k, v)]
  | (k', v') :: fs' =>
      if String.eqb k k' then (k, v) :: fs' else (k', v') :: set_field k v fs'
  end.

(* ===================================================================== *)
(** ** The literal assigned to [searchIndex["ticktock"]] *)
(* ===================================================================== *)

Module Literal.

(** The escape [\n] inside a string of the literal. *)
Definition nl : string := String "010"%char EmptyString.

(** [{"name": n}], a type name of a signature. *)
Definition ty (n : string) : json := JObj [("name", JStr n)].

(** [{"inputs": [...], "output": {...}}]. *)
Definition fn (ins : list string) (out : string) : json :=
  JObj [("inputs", JArr (map ty ins)); ("output", ty out)].

Definition doc : string := "Timing module for frame-based applications".

Definition items : list json :=
  [ JArr [JNum 0; JStr "clock"; JStr "ticktock"; JStr "Frame clock module";
          JNull; JNull];
    JArr [JNum 3; JStr "Clock"; JStr "ticktock::clock";
          JStr "Clock structure."; JNull; JNull];
    JArr [JNum 3; JStr "ClockIter"; JStr ""; JStr "A clock iterator";
          JNull; JNull];
    JArr [JNum 3; JStr "ClockIterRelative"; JStr "";
          JStr "Similar to `ClockIter`, but returns a relative time instead.";
          JNull; JNull];
    JArr [JNum 11; JStr "new"; JStr ""; JStr "Creates a new clock.";
          JNum 0; fn ["duration"] "clock"];
    JArr [JNum 11; JStr "new_with_start_time"; JStr "";
          JStr "Creates a new clock with a specified start time";
          JNum 0; fn ["duration"; "instant"] "clock"];
    JArr [JNum 11; JStr "synced"; JStr "";
          JStr ("Creates a new clock with a different tick length that is synced to"
                +:+ nl +:+ "the original clock");
          JNum 0; fn ["clock"; "duration"] "clock"];
    JArr [JNum 11; JStr "start"; JStr ""; JStr "Get start time";
          JNum 0; fn ["clock"] "instant"];
    JArr [JNum 11; JStr "wait_until_tick"; JStr "";
          JStr "Waits for the next clock tick."; JNum 0; JNull];
    JArr [JNum 11; JStr "iter"; JStr ""; JStr "Creates a clock iterator.";
          JNum 0; fn ["clock"] "clockiter"];
    JArr [JNum 11; JStr "rel_iter"; JStr "";
          JStr "Create a relative clock iterator.";
          JNum 0; fn ["clock"] "clockiterrelative"];
    JArr [JNum 11; JStr "next"; JStr ""; JStr "";
          JNum 1; fn ["clockiter"] "option"];
    JArr [JNum 11; JStr "next"; JStr ""; JStr "";
          JNum 2; fn ["clockiterrelative"] "option"];
    JArr [JNum 0; JStr "timer"; JStr "ticktock";
          JStr "Non-selfupdating interval timers"; JNull; JNull];
    JArr [JNum 3; JStr "Timer"; JStr "ticktock::timer";
          JStr "Interval-timer"; JNull; JNull];
    JArr [JNum 11; JStr "new"; JStr ""; JStr "Creates a new timer.";
          JNum 3; fn ["duration"] "timer"];
    JArr [JNum 11; JStr "new_with_start_time"; JStr "";
          JStr "Creates a new timer with a specific start time";
          JNum 3; fn ["duration"; "instant"] "timer"];
    JArr [JNum 11; JStr "has_fired"; JStr "";
          JStr ("Returns true if the timer has fired since the last time passed to"
                +:+ nl +:+ "`reset()`.");
          JNum 3; fn ["timer"; "instant"] "bool"];
    JArr [JNum 11; JStr "remaining"; JStr "";
          JStr "Remaining time until the timer will fire again.";
          JNum 3; fn ["timer"; "instant"] "duration"];
    JArr [JNum 11; JStr "reset"; JStr "";
          JStr "Notify the timer it has been executed.";
          JNum 3; fn ["timer"; "instant"] "u32"];
    JArr [JNum 11; JStr "handle"; JStr "";
          JStr "Combines `has_fired()` and `reset()`.";
          JNum 3; fn ["timer"; "instant"] "bool"] ].

Definition paths : list json :=
  [ JArr [JNum 3; JStr "Clock"];
    JArr [JNum 3; JStr "ClockIter"];
    JArr [JNum 3; JStr "ClockIterRelative"];
    JArr [JNum 3; JStr "Timer"] ].

Definition ticktock : json :=
  JObj [("doc", JStr doc); ("items", JArr items); ("paths", JArr paths)].

End Literal.

(* ===================================================================== *)
(** ** The script: statements and their semantics *)
(* ===================================================================== *)

(** The three statement forms the script uses. *)
Inductive stmt : Type :=
| SVar (x : string) (init : json)            (* var x = <literal>;       *)
| SSetProp (x key : string) (rhs : json)     (* x[key] = <literal>;      *)
| SCall (f : string) (args : list string).   (* f(x1, ..., xn);          *)

(** [search-index.js], lines 1 to 3. *)
Definition search_index_js : list stmt :=
  [ SVar "searchIndex" (JObj []);
    SSetProp "searchIndex" "ticktock" Literal.ticktock;
    SCall "initSearch" ["searchIndex"] ].

(** Objects are reached through references.  A variable holds the location
    of its object; a call passes locations, so that the callee sees the
    caller's object and not a copy.  Objects written inside a literal have no
    other reference and are kept in place in the tree. *)
Definition loc := nat.

(** The functions of the page are not part of this file; they are known by
    an identifier only. *)
Definition fid := string.

(** What a global name is bound to: [undefined] (a [var] that has not been
    assigned yet), an object, or a function of the page. *)
Inductive binding : Type :=
| BUndef
| BRef (l : loc)
| BFun (f : fid).

(** The page as a script finds it: the global bindings, the objects, the next
    free location, and the names declared with [let], [const] or [class],
    which a [var] may not declare again. *)
Record store : Type := Store {
  env : gmap string binding;
  heap : gmap loc json;
  next : loc;
  lexical : gset string
}.

(** A call of a function of the page: which function, the arguments, and the
    store in which the call is made. *)
Record call_event : Type := CallEvent {
  callee : fid;
  call_args : list binding;
  call_store : store
}.

Inductive error : Type :=
| SyntaxError (x : string)         (* [var x] where [x] is lexically declared *)
| ReferenceError (x : string)      (* a name that is not defined          *)
| TypeError (x : string)           (* a property set on null or undefined,
                                      or a call of what is not a function *)
| Unsupported (x : string)         (* a property set on a non-object      *)
| Thrown (v : json).               (* whatever a function of the page throws *)

Inductive result (A : Type) : Type :=
| Ok (a : A)
| Err (e : error).
Arguments Ok {A} a.
Arguments Err {A} e.

(** What a run gives: the calls made, in order, and how it ended.  The calls
    are kept when the run ends in an error. *)
Record outcome (A : Type) : Type := Outcome {
  trace : list call_event;
  res : result A
}.
Arguments Outcome {A} trace res.
Arguments trace {A} o.
Arguments res {A} o.

#[global] Instance outcome_ret : MRet outcome := fun A a => Outcome [] (Ok a).

#[global] Instance outcome_bind : MBind outcome := fun A B k o =>
  match res o with
  | Ok a => Outcome (trace o ++ trace (k a)) (res (k a))
  | Err e => Outcome (trace o) (Err e)
  end.

Definition raise {A : Type} (e : error) : outcome A := Outcome [] (Err e).

Definition lookup_var (x : string) (st : store) : outcome binding :=
  match env st !! x with
  | Some b => mret b
  | None => raise (ReferenceError x)
  end.

Fixpoint lookup_vars (xs : list string) (st : store) : outcome (list binding) :=
  match xs with
  | [] => mret []
  | x :: xs' =>
      b ← lookup_var x st;
      bs ← lookup_vars xs' st;
      mret (b :: bs)
  end.

(** The behaviour of the functions of the page: called with arguments in a
    store, a function returns a store or throws.  Nothing else is assumed of
    it; a function that never returns is outside this model. *)
Definition host : Type := fid -> list binding -> store -> result store.

(** The names a script declares with [var]. *)
Definition var_names (p : list stmt) : list string :=
  omap (fun s => match s with SVar x _ => Some x | _ => None end) p.

(** Before a script runs, each of its [var] names that is not bound yet is
    bound to [undefined]. *)
Definition hoist (xs : list string) (st : store) : store :=
  {| env := foldr (fun x e => match e !! x with
                              | Some _ => e
                              | None => <[x := BUndef]> e
                              end) (env st) xs;
     heap := heap st;
     next := next st;
     lexical := lexical st |}.

Section Exec.

Variable page : host.

Definition exec (s : stmt) (st : store) : outcome store :=
  match s with
  | SVar x init =>
      let l := next st in
      mret {| env := <[x := BRef l]> (env st);
              heap := <[l := init]> (heap st);
              next := S l;
              lexical := lexical st |}
  | SSetProp x key rhs =>
      b ← lookup_var x st;
      match b with
      | BUndef => raise (TypeError x)
      | BFun _ => raise (Unsupported x)
      | BRef l =>
          match heap st !! l with
          | Some (JObj fs) =>
              mret {| env := env st;
                      heap := <[l := JObj (set_field key rhs fs)]> (heap st);
                      next := next st;
                      lexical := lexical st |}
          | Some JNull | None => raise (TypeError x)
          | Some _ => raise (Unsupported x)
          end
      end
  | SCall f args =>
      b ← lookup_var f st;
      bs ← lookup_vars args st;
      match b with
      | BFun g => Outcome [CallEvent g bs st] (page g bs st)
      | _ => raise (TypeError f)
      end
  end.

(** The statements of a script, one after the other. *)
Fixpoint exec_all (p : list stmt) (st : store) : outcome store :=
  match p with
  | [] => mret st
  | s :: p' => st' ← exec s st; exec_all p' st'
  end.

(** Loading a script: a [var] of a lexically declared name is refused before
    anything runs; otherwise the [var] names are bound and the statements
    run. *)
Definition run (p : list stmt) (st : store) : outcome store :=
  match list_find (fun x => x ∈ lexical st) (var_names p) with
  | Some (_, x) => raise (SyntaxError x)
  | None => exec_all p (hoist (var_names p) st)
  end.

(** A script loaded [n] times in a row. *)
Fixpoint run_times (p : list stmt) (n : nat) (st : store) : outcome store :=
  match n with
  | O => mret st
  | S n' => st' ← run p st; run_times p n' st'
  end.

End Exec.

(** The page of the documentation browser, as far as the script depends on
    it: it defines the function [initSearch]. *)
Definition browser_page : store :=
  {| env := {[ "initSearch" := BFun "initSearch" ]};
     heap := ∅;
     next := O;
     lexical := ∅ |}.

(** A page whose functions return at once and change nothing. *)
Definition returns_at_once : host := fun _ _ st => Ok st.

(** The object a variable denotes in a store. *)
Definition deref (x : string) (st : store) : option json :=
  match env st !! x with
  | Some (BRef l) => heap st !! l
  | _ => None
  end.

(** [searchIndex] as the script hands it over: the object the variable
    denotes in the store of the one call the script makes.  (The call is
    recorded before the callee runs; which behaviour the page has is of no
    account here.) *)
Definition searchIndex : option json :=
  match trace (run returns_at_once search_index_js browser_page) with
  | [ev] => deref "searchIndex" (call_store ev)
  | _ => None
  end.

(** [searchIndex[crate]] and its three properties. *)
Definition crate (c : string) : option json :=
  ix ← searchIndex; get_field c ix.

Definition crate_doc (c : string) : option string :=
  d ← crate c; t ← get_field "doc" d; as_string t.

Definition crate_items (c : string) : option (list json) :=
  d ← crate c; l ← get_field "items" d; as_array l.

Definition crate_paths (c : string) : option (list json) :=
  d ← crate c; l ← get_field "paths" d; as_array l.

(* ===================================================================== *)
(** ** Item records *)
(* ===================================================================== *)

(** The kind codes that occur in the index. *)
Definition KIND_MODULE : Z := 0.
Definition KIND_STRUCT : Z := 3.
Definition KIND_METHOD : Z := 11.

(** An item record read as a 6-tuple. *)
Record item : Type := Item {
  kind : Z;
  name : string;
  path : string;
  desc : string;
  parent : option Z;
  search_type : option (list (string * json))
}.

Definition as_object (j : json) : option (list (string * json)) :=
  match j with
  | JObj fs => Some fs
  | _ => None
  end.

(** A component that is [null] or else must be read by [f]. *)
Definition nullable {A : Type} (f : json -> option A) (j : json)
  : option (option A) :=
  match j with
  | JNull => Some None
  | _ => a ← f j; Some (Some a)
  end.

Definition decode_item (r : json) : option item :=
  match r with
  | JArr [k; n; p; d; pi; t] =>
      k' ← as_number k;
      n' ← as_string n;
      p' ← as_string p;
      d' ← as_string d;
      pi' ← nullable as_number pi;
      t' ← nullable as_object t;
      Some (Item k' n' p' d' pi' t')
  | _ => None
  end.

(** The shape of an item record, stated on the tree. *)
Definition item_shape (r : json) : Prop :=
  ∃ (k : Z) (n p d : string) (pi t : json),
    r = JArr [JNum k; JStr n; JStr p; JStr d; pi; t] ∧
    (pi = JNull ∨ ∃ i : Z, pi = JNum i) ∧
    (t = JNull ∨ ∃ fs, t = JObj fs).

(** A document object: a description and a sequence of item records. *)
Definition document_shape (d : json) : Prop :=
  ∃ (text : string) (its : list json),
    get_field "doc" d = Some (JStr text) ∧
    get_field "items" d = Some (JArr its) ∧
    Forall item_shape its.

(** An entry [[kind, name]] of the paths list. *)
Definition decode_path (e : json) : option (Z * string) :=
  match e with
  | JArr [JNum k; JStr n] => Some (k, n)
  | _ => None
  end.

(** The item records and the paths of the crate, decoded. *)
Definition ticktock_items : list item :=
  default [] (rs ← crate_items "ticktock"; mapM decode_item rs).

Definition ticktock_paths : list (Z * string) :=
  default [] (es ← crate_paths "ticktock"; mapM decode_path es).

(** [paths[i]]: the entry a parent index selects, if it selects one. *)
Definition resolve_parent (ps : list (Z * string)) (i : Z)
  : option (Z * string) :=
  if (i <? 0)%Z then None else ps !! Z.to_nat i.

(** The struct a record belongs to. *)
Definition parent_name (ps : list (Z * string)) (it : item) : option string :=
  i ← parent it; e ← resolve_parent ps i; Some e.2.

(** The names [t.name] of the inputs and of the output of a signature. *)
Definition type_name (j : json) : option string :=
  n ← get_field "name" j; as_string n.

Definition sig_inputs (fs : list (string * json)) : option (list string) :=
  ins ← assoc "inputs" fs; l ← as_array ins; mapM type_name l.

Definition sig_output (fs : list (string * json)) : option string :=
  out ← assoc "output" fs; type_name out.

(** The components of a record, and a test on every value below one. *)
Definition components (r : json) : list json :=
  match r with
  | JArr l => l
  | _ => []
  end.

Fixpoint json_any (p : json -> bool) (j : json) : bool :=
  p j ||
  match j with
  | JArr l => existsb (json_any p) l
  | JObj fs => existsb (fun kv => match kv with (_, v) => json_any p v end) fs
  | _ => false
  end.

Definition is_item_record (j : json) : bool :=
  match decode_item j with Some _ => true | None => false end.

(** A list with an item record among its elements. *)
Definition is_item_list (j : json) : bool :=
  match j with
  | JArr l => existsb is_item_record l
  | _ => false
  end.

Definition has_nested_items (r : json) : bool :=
  existsb (json_any is_item_list) (components r).

(** A signature as the index writes it: a list of input type names and one
    output type name. *)
Definition signature_shape (fs : list (string * json)) : Prop :=
  ∃ (ins : list string) (out : string),
    sig_inputs fs = Some ins ∧
    sig_output fs = Some out ∧
    JObj fs = Literal.fn ins out.

(* ===================================================================== *)
(** ** Strings *)
(* ===================================================================== *)

Definition LF : ascii := "010"%char.
Definition CR : ascii := "013"%char.

Definition is_line_terminator (c : ascii) : bool :=
  Ascii.eqb c LF || Ascii.eqb c CR.

Fixpoint count_newlines (s : string) : nat :=
  match s with
  | EmptyString => O
  | String c s' =>
      ((if is_line_terminator c then 1 else 0) + count_newlines s')%nat
  end.

Definition one_line (s : string) : Prop := count_newlines s = O.

Definition lower_ascii (c : ascii) : ascii :=
  let n := nat_of_ascii c in
  if ((65 <=? n) && (n <=? 90))%nat then ascii_of_nat (n + 32) else c.

Fixpoint to_lower (s : string) : string :=
  match s with
  | EmptyString => EmptyString
  | String c s' => String (lower_ascii c) (to_lower s')
  end.

Fixpoint strip_prefix (p s : string) : option string :=
  match p, s with
  | EmptyString, _ => Some s
  | String a p', String b s' =>
      if Ascii.eqb a b then strip_prefix p' s' else None
  | String _ _, EmptyString => None
  end.

(** The text before and after the first occurrence of [sep]. *)
Fixpoint split_on (sep s : string) : option (string * string) :=
  match strip_prefix sep s with
  | Some rest => Some (EmptyString, rest)
  | None =>
      match s with
      | EmptyString => None
      | String c s' =>
          match split_on sep s' with
          | Some (a, b) => Some (String c a, b)
          | None => None
          end
      end
  end.

(* ===================================================================== *)
(** ** The README text that follows the script *)
(* ===================================================================== *)

(** The README comes after the last statement, set off by a separator mark
    that belongs to neither; its lines are kept as they are. *)

Definition readme : list string :=
  [ "Frame-clock and timers";
    "======================";
    "";
    "`ticktock` makes it very easy to access frame-timing iterators to achieve";
    "constant framerates:";
    "";
    "```rust";
    "// run with a constant framerate of 30 fps";
    "for (tick, now) in Clock::framerate(30.0).iter() {";
    "  // ...";
    "}";
    "```";
    "";
    "See the [documentation](https://docs.rs/ticktock) for details." ].

(** The file, piece by piece: statements, then lines of text. *)
Inductive chunk : Type :=
| Code (s : stmt)
| Prose (line : string).

Definition source_file : list chunk :=
  map Code search_index_js ++ map Prose readme.

(** What a statement does. *)
Inductive stmt_role : Type :=
| DataAssignment (x : string)
| HostCall (f : string).

Definition role (s : stmt) : stmt_role :=
  match s with
  | SVar x _ => DataAssignment x
  | SSetProp x _ _ => DataAssignment x
  | SCall f _ => HostCall f
  end.

Definition code_of (c : chunk) : option stmt :=
  match c with Code s => Some s | Prose _ => None end.

Definition prose_of (c : chunk) : option string :=
  match c with Code _ => None | Prose l => Some l end.

(** The statements that follow the last assignment to [x]. *)
Fixpoint after_assignments (x : string) (p : list stmt) : list stmt :=
  match p with
  | [] => []
  | s :: p' =>
      let rest := after_assignments x p' in
      match role s with
      | DataAssignment y =>
          if String.eqb x y then
            (if existsb (fun s' => match role s' with
                                   | DataAssignment z => String.eqb x z
                                   | HostCall _ => false
                                   end) p'
             then rest else p')
          else rest
      | HostCall _ => rest
      end
  end.

(** A fenced code block: the word after the opening fence and the lines up
    to the closing fence. *)
Record code_block : Type := CodeBlock {
  language : string;
  body : list string
}.

Definition fence : string := "```".

Fixpoint code_blocks_from (open : option code_block) (ls : list string)
  : list code_block :=
  match ls with
  | [] => match open with Some b => [b] | None => [] end
  | l :: ls' =>
      match open, strip_prefix fence l with
      | None, Some info => code_blocks_from (Some (CodeBlock info [])) ls'
      | None, None => code_blocks_from None ls'
      | Some b, Some _ => b :: code_blocks_from None ls'
      | Some b, None =>
          code_blocks_from (Some (CodeBlock (language b) (body b ++ [l]))) ls'
      end
  end.

Definition code_blocks (ls : list string) : list code_block :=
  code_blocks_from None ls.

(** A [for PATTERN in EXPR {] line of a code sample. *)
Record for_loop : Type := ForLoop {
  pattern : string;
  iterable : string
}.

Definition parse_for (l : string) : option for_loop :=
  rest ← strip_prefix "for " l;
  '(pat, rest') ← split_on " in " rest;
  '(e, tail) ← split_on " {" rest';
  if String.eqb tail "" then Some (ForLoop pat e) else None.

Definition for_loops (b : code_block) : list for_loop :=
  omap parse_for (body b).

(** The names a line calls: each identifier directly followed by [(]. *)
Definition is_ident_char (c : ascii) : bool :=
  let n := nat_of_ascii c in
  (((48 <=? n) && (n <=? 57)) || ((65 <=? n) && (n <=? 90)) ||
   ((97 <=? n) && (n <=? 122)) || (n =? 95))%nat.

Fixpoint called_from (cur : string) (s : string) : list string :=
  match s with
  | EmptyString => []
  | String c s' =>
      if is_ident_char c then called_from (cur +:+ String c EmptyString) s'
      else if Ascii.eqb c "("%char && negb (String.eqb cur "")
           then cur :: called_from "" s'
           else called_from "" s'
  end.

Definition called_names (l : string) : list string := called_from "" l.

(** The names called in the Rust samples of the README. *)
Definition readme_calls : list string :=
  flat_map (fun b => flat_map called_names (body b))
           (filter (fun b => language b = "rust") (code_blocks readme)).

(** [sub] occurs in [s]. *)
Definition contains (sub s : string) : bool :=
  match split_on sub s with Some _ => true | None => false end.

(** A string value in which [sub] occurs. *)
Definition mentions (sub : string) (j : json) : bool :=
  match j with
  | JStr s => contains sub s
  | _ => false
  end.

(** A component with nothing inside it: a number, a string or [null]. *)
Definition flat (c : json) : bool :=
  negb (is_array c || is_object c).

Definition flat_components (r : json) : Prop :=
  Forall (fun c => flat c = true) (components r).

(** Some records of the index, decoded. *)
Definition clock_new : item :=
  Item 11 "new" "" "Creates a new clock." (Some 0)
       (Some [("inputs", JArr [Literal.ty "duration"]);
              ("output", Literal.ty "clock")]).

Definition clock_synced : item :=
  Item 11 "synced" ""
       ("Creates a new clock with a different tick length that is synced to"
        +:+ Literal.nl +:+ "the original clock")
       (Some 0)
       (Some [("inputs", JArr [Literal.ty "clock"; Literal.ty "duration"]);
              ("output", Literal.ty "clock")]).

Definition clock_wait_until_tick : item :=
  Item 11 "wait_until_tick" "" "Waits for the next clock tick." (Some 0) None.

Definition clock_iter : item :=
  Item 11 "iter" "" "Creates a clock iterator." (Some 0)
       (Some [("inputs", JArr [Literal.ty "clock"]);
              ("output", Literal.ty "clockiter")]).

Definition clock_iter_relative : item :=
  Item 3 "ClockIterRelative" ""
       "Similar to `ClockIter`, but returns a relative time instead."
       None None.

Definition timer_new : item :=
  Item 11 "new" "" "Creates a new timer." (Some 3)
       (Some [("inputs", JArr [Literal.ty "duration"]);
              ("output", Literal.ty "timer")]).

Definition timer_has_fired : item :=
  Item 11 "has_fired" ""
       ("Returns true if the timer has fired since the last time passed to"
        +:+ Literal.nl +:+ "`reset()`.")
       (Some 3)
       (Some [("inputs", JArr [Literal.ty "timer"; Literal.ty "instant"]);
              ("output", Literal.ty "bool")]).

(** The four struct names of the crate. *)
Definition struct_names : list string :=
  ["Clock"; "ClockIter"; "ClockIterRelative"; "Timer"].

(** The statements that build the index, before it is handed over. *)
Definition index_assignments : list stmt :=
  [ SVar "searchIndex" (JObj []);
    SSetProp "searchIndex" "ticktock" Literal.ticktock ].

(** One item record of the list: it decodes; its first five components are
    flat; no list of item records is nested in it; and its signature, when
    it has one, is an object of input type names and an output type name. *)
Definition plain_record (r : json) : Prop :=
  ∃ it,
    decode_item r = Some it ∧
    Forall (λ c, flat c = true) (take 5 (components r)) ∧
    has_nested_items r = false ∧
    match search_type it with
    | Some fs => signature_shape fs
    | None => True
    end.

(* ===================================================================== *)
(** ** Further views of the records and of the script *)
(* ===================================================================== *)

(** A 6-tuple written back from its decoded components. *)
Definition encode_nullable {A : Type} (f : A -> json) (o : option A) : json :=
  match o with
  | Some a => f a
  | None => JNull
  end.

Definition encode_item (it : item) : json :=
  JArr [ JNum (kind it); JStr (name it); JStr (path it); JStr (desc it);
         encode_nullable JNum (parent it);
         encode_nullable JObj (search_type it) ].

(** The records named [new] and [new_with_start_time]. *)
Definition is_constructor (it : item) : bool :=
  bool_decide (name it ∈ ["new"; "new_with_start_time"]).

(** The first input type of a record's signature. *)
Definition receiver (it : item) : option string :=
  fs ← search_type it; ins ← sig_inputs fs; head ins.

(** Every type name a record's signature mentions, inputs then output. *)
Definition signature_names (it : item) : list string :=
  match search_type it with
  | Some fs =>
      default [] (sig_inputs fs) ++ from_option (λ o, [o]) [] (sig_output fs)
  | None => []
  end.

(** The index as the script builds it. *)
Definition built_index : json := JObj [("ticktock", Literal.ticktock)].

(** The store in which the script makes its call, when it is loaded in
    [st]: [searchIndex] is bound to a new object, the built index. *)
Definition handed (st : store) : store :=
  let l := next st in
  {| env := <["searchIndex" := BRef l]> (env st);
     heap := <[l := built_index]> (heap st);
     next := S l;
     lexical := lexical st |}.

(** A call of [g] that receives one object, the built index, which is also
    what [searchIndex] denotes when the call is made. *)
Definition index_call (g : fid) (ev : call_event) : Prop :=
  callee ev = g ∧
  ∃ l, call_args ev = [BRef l] ∧
       env (call_store ev) !! "searchIndex" = Some (BRef l) ∧
       heap (call_store ev) !! l = Some built_index.

(** A function [g] of the page that, called where [initSearch] is [g] and
    [searchIndex] is not lexically declared, returns and leaves both so. *)
Definition keeps_page (page : host) (g : fid) : Prop :=
  ∀ bs st,
    env st !! "initSearch" = Some (BFun g) →
    "searchIndex" ∉ lexical st →
    ∃ st', page g bs st = Ok st' ∧
           env st' !! "initSearch" = Some (BFun g) ∧
           "searchIndex" ∉ lexical st'.



(** A page on which [searchIndex] already holds another crate's entry and a
    second variable shares that object. *)
Definition page_with_other_crate : store :=
  {| env := <["searchIndex" := BRef O]>
              (<["previous" := BRef O]>
                 {[ "initSearch" := BFun "initSearch" ]});
     heap := {[ O := JObj [("other", JObj [("doc", JStr "")])] ]};
     next := 1%nat;
     lexical := ∅ |}.

(** The number of records of a list that bear a given name. *)
Definition occurrences (n : string) (its : list item) : nat :=
  length (filter (λ it, name it = n) its).

(* ===================================================================== *)
(** ** Proof steps that recur *)
(* ===================================================================== *)

(** Membership in a list that is written out. *)
Ltac list_member :=
  repeat first [apply list_elem_of_here | apply list_elem_of_further].

(** A hypothesis [x ∈ [a; b; ...]] where [x] is none of them. *)
Ltac not_listed H :=
  exfalso;
  repeat (apply elem_of_cons in H as [H | H]; [discriminate H|]);
  by apply elem_of_nil in H.

(** Membership of a given record in the decoded item list. *)
Ltac item_member :=
  let l := eval vm_compute in ticktock_items in
  replace ticktock_items with l by (vm_compute; reflexivity);
  list_member.

(** Case analysis on membership in the decoded item list. *)
Ltac item_cases H :=
  let l := eval vm_compute in ticktock_items in
  replace ticktock_items with l in H by (vm_compute; reflexivity);
  repeat (apply elem_of_cons in H as [-> | H]);
  try (by apply elem_of_nil in H).

(** A struct record given by hand, and its entry in the paths list. *)
Ltac struct_case it :=
  split; [exists it; split; [item_member | done] | simpl; list_member].

(** One record of the item list is a [plain_record]. *)
Ltac plain_record_case :=
  eexists; split; [reflexivity|];
  split; [repeat constructor|];
  split; [vm_compute; reflexivity|];
  simpl;
  first [ exact I
        | do 2 eexists; split; [vm_compute; reflexivity|];
          split; [vm_compute; reflexivity | reflexivity] ].

(* ===================================================================== *)
(** * Properties *)
(* ===================================================================== *)

Example searchIndex_value :
  searchIndex = Some (JObj [("ticktock", Literal.ticktock)]).
Proof. vm_compute. reflexivity. Qed.

Example ticktock_paths_value :
  ticktock_paths = [(3, "Clock"); (3, "ClockIter"); (3, "ClockIterRelative"); (3, "Timer")].
Proof. vm_compute. reflexivity. Qed.

Example readme_calls_value : readme_calls = ["framerate"; "iter"].
Proof. vm_compute. reflexivity. Qed.

Example readme_blocks_value :
  map for_loops (code_blocks readme)
  = [[ForLoop "(tick, now)" "Clock::framerate(30.0).iter()"]].
Proof. vm_compute. reflexivity. Qed.

Example after_assignments_value :
  after_assignments "searchIndex" search_index_js = [SCall "initSearch" ["searchIndex"]].
Proof. vm_compute. reflexivity. Qed.

Example length_items : length ticktock_items = 21%nat.
Proof. vm_compute. reflexivity. Qed.

(* --------------------------------------------------------------------- *)
(** ** Objects and the store *)
(* --------------------------------------------------------------------- *)

Section Fields.
Context {A : Type}.
Implicit Types (k : string) (v : A) (fs : list (string * A)).

(** After [o[k] = v], [o[k]] is [v]. *)
Lemma assoc_set_field_eq k v fs : assoc k (set_field k v fs) = Some v.
Proof.
  induction fs as [|[k' v'] fs IH]; simpl.
  - by rewrite String.eqb_refl.
  - destruct (String.eqb k k') eqn:E; simpl.
    + by rewrite String.eqb_refl.
    + by rewrite E.
Qed.

(** ... and the other properties are as before. *)
Lemma assoc_set_field_ne k k' v fs :
  k ≠ k' → assoc k' (set_field k v fs) = assoc k' fs.
Proof.
  intros Hne. assert (String.eqb k' k = false) as Hkk.
  { apply String.eqb_neq. congruence. }
  induction fs as [|[k0 v0] fs IH]; simpl.
  - by rewrite Hkk.
  - destruct (String.eqb k k0) eqn:E; simpl.
    + apply String.eqb_eq in E as <-. by rewrite Hkk.
    + by rewrite IH.
Qed.

Lemma set_field_fresh k v fs :
  assoc k fs = None → set_field k v fs = fs ++ [(k, v)].
Proof.
  induction fs as [|[k' v'] fs IH]; simpl; [done|].
  destruct (String.eqb k k'); [done|]. intros H. by rewrite IH.
Qed.

End Fields.

Section Run.
Variable page : host.

Lemma bind_mret {A B : Type} (a : A) (k : A → outcome B) : mret a ≫= k = k a.
Proof. unfold mbind, outcome_bind. simpl. by destruct (k a). Qed.

Lemma bind_raise {A B : Type} (e : error) (k : A → outcome B) :
  raise e ≫= k = raise e.
Proof. reflexivity. Qed.

Lemma bind_assoc {A B C : Type} (m : outcome A) (f : A → outcome B)
      (g : B → outcome C) :
  (m ≫= f) ≫= g = m ≫= (λ a, f a ≫= g).
Proof.
  destruct m as [t [a|e]]; unfold mbind, outcome_bind; simpl; [|done].
  destruct (f a) as [t' [b|e']]; simpl; [|done].
  by rewrite app_assoc.
Qed.

Lemma bind_ext {A B : Type} (m : outcome A) (f g : A → outcome B) :
  (∀ a, f a = g a) → m ≫= f = m ≫= g.
Proof.
  intros H. destruct m as [t [a|e]]; unfold mbind, outcome_bind; simpl;
    [by rewrite H | done].
Qed.

Lemma exec_all_app (p q : list stmt) (st : store) :
  exec_all page (p ++ q) st = st' ← exec_all page p st; exec_all page q st'.
Proof.
  revert st. induction p as [|s p IH]; intros st; cbn [app exec_all].
  - by rewrite bind_mret.
  - rewrite bind_assoc. apply bind_ext. intros st1. apply IH.
Qed.

(** [x[k] = v] where [x] denotes an object. *)
Lemma exec_set_prop (x k : string) (v : json) (st : store) (l : loc)
      (fs : list (string * json)) :
  env st !! x = Some (BRef l) →
  heap st !! l = Some (JObj fs) →
  exec page (SSetProp x k v) st
  = mret {| env := env st;
            heap := <[l := JObj (set_field k v fs)]> (heap st);
            next := next st;
            lexical := lexical st |}.
Proof.
  intros Hx Hl. cbn [exec]. unfold lookup_var. rewrite Hx, bind_mret.
  by rewrite Hl.
Qed.

(** [f(x)]: the three ways it goes, by what [f] is bound to. *)
Lemma exec_call (f x : string) (st : store) (b : binding) :
  env st !! x = Some b →
  exec page (SCall f [x]) st
  = match env st !! f with
    | None => raise (ReferenceError f)
    | Some (BFun g) => Outcome [CallEvent g [b] st] (page g [b] st)
    | Some _ => raise (TypeError f)
    end.
Proof.
  intros Hx. cbn [exec lookup_vars]. unfold lookup_var. rewrite Hx.
  destruct (env st !! f) as [bf|]; [|reflexivity].
  rewrite !bind_mret. reflexivity.
Qed.

Lemma handed_hoist (st : store) :
  handed (hoist ["searchIndex"] st) = handed st.
Proof.
  unfold handed, hoist. simpl. f_equal.
  destruct (env st !! "searchIndex"); [done|]. by rewrite insert_insert_eq.
Qed.

(** The two assignments: they cannot fail, they call nothing, and they leave
    the store [handed]. *)
Lemma exec_assignments (st : store) :
  exec_all page index_assignments st = mret (handed st).
Proof.
  unfold index_assignments. cbn [exec_all].
  replace (exec page (SVar "searchIndex" (JObj [])) st)
    with (mret (M := outcome)
            {| env := <["searchIndex" := BRef (next st)]> (env st);
               heap := <[next st := JObj []]> (heap st);
               next := S (next st);
               lexical := lexical st |}) by reflexivity.
  rewrite bind_mret.
  rewrite exec_set_prop with (l := next st) (fs := [])
    by (simpl; apply lookup_insert_eq).
  rewrite !bind_mret. unfold handed, built_index. simpl.
  by rewrite insert_insert_eq.
Qed.

Lemma find_lexical (st : store) :
  list_find (λ x, x ∈ lexical st) ["searchIndex"]
  = if decide ("searchIndex" ∈ lexical st) then Some (O, "searchIndex") else None.
Proof. simpl. by destruct (decide ("searchIndex" ∈ lexical st)). Qed.

Lemma run_assignments (st : store) :
  "searchIndex" ∉ lexical st →
  run page index_assignments st = mret (handed st).
Proof.
  intros Hlex. unfold run.
  change (var_names index_assignments) with ["searchIndex"].
  rewrite find_lexical.
  destruct (decide ("searchIndex" ∈ lexical st)) as [Hin|_]; [done|].
  by rewrite exec_assignments, handed_hoist.
Qed.

(** The whole script, from any store and for any behaviour of the page. *)
Lemma run_script (st : store) :
  run page search_index_js st
  = if decide ("searchIndex" ∈ lexical st) then raise (SyntaxError "searchIndex")
    else match env st !! "initSearch" with
         | None => raise (ReferenceError "initSearch")
         | Some (BFun g) =>
             Outcome [CallEvent g [BRef (next st)] (handed st)]
                     (page g [BRef (next st)] (handed st))
         | Some _ => raise (TypeError "initSearch")
         end.
Proof.
  unfold run. change (var_names search_index_js) with ["searchIndex"].
  rewrite find_lexical.
  destruct (decide ("searchIndex" ∈ lexical st)) as [Hin|_]; [done|].
  change search_index_js
    with (index_assignments ++ [SCall "initSearch" ["searchIndex"]]).
  rewrite exec_all_app, exec_assignments, bind_mret, handed_hoist.
  cbn [exec_all].
  rewrite (exec_call "initSearch" "searchIndex" (handed st) (BRef (next st)))
    by (simpl; apply lookup_insert_eq).
  assert (env (handed st) !! "initSearch" = env st !! "initSearch") as ->
    by (simpl; by rewrite lookup_insert_ne).
  destruct (env st !! "initSearch") as [[| |g]|]; try reflexivity.
  unfold mbind, outcome_bind. simpl.
  destruct (page g [BRef (next st)] (handed st)); simpl; reflexivity.
Qed.

End Run.

(** What the script hands over does not depend on what the page does. *)
Lemma searchIndex_any_page (page : host) :
  match trace (run page search_index_js browser_page) with
  | [ev] => deref "searchIndex" (call_store ev)
  | _ => None
  end = searchIndex.
Proof.
  unfold searchIndex. rewrite (run_script page), (run_script returns_at_once).
  destruct (decide ("searchIndex" ∈ lexical browser_page)) as [Hin|_];
    reflexivity.
Qed.

(* --------------------------------------------------------------------- *)
(** ** Decoding *)
(* --------------------------------------------------------------------- *)

Lemma nullable_Some {A : Type} (f : json → option A) (j : json) (o : option A) :
  nullable f j = Some o →
  (j = JNull ∧ o = None) ∨ (∃ a, f j = Some a ∧ o = Some a).
Proof.
  destruct j; simpl; try (intros [= <-]; by left);
    (destruct (f _) as [a|] eqn:E; simpl; [|done]);
    intros [= <-]; right; eauto.
Qed.

Lemma decode_item_shape (r : json) (it : item) :
  decode_item r = Some it → item_shape r.
Proof.
  unfold decode_item.
  destruct r as [| | |l|]; try done.
  destruct l as [|k [|n [|p [|d [|pi [|t [|]]]]]]]; try done.
  destruct k as [|k| | |]; try done.
  destruct n as [| |n| |]; try done.
  destruct p as [| |p| |]; try done.
  destruct d as [| |d| |]; try done.
  simpl.
  destruct (nullable as_number pi) as [pi'|] eqn:Hpi; simpl; [|done].
  destruct (nullable as_object t) as [t'|] eqn:Ht; simpl; [|done].
  intros _. exists k, n, p, d, pi, t. split; [done|]. split.
  - apply nullable_Some in Hpi as [[-> _]|(i & Hi & _)]; [by left|].
    right. destruct pi; try done. eauto.
  - apply nullable_Some in Ht as [[-> _]|(fs & Hfs & _)]; [by left|].
    right. destruct t; try done. eauto.
Qed.

Lemma is_item_record_shape (r : json) : is_item_record r = true → item_shape r.
Proof.
  unfold is_item_record. destruct (decode_item r) as [it|] eqn:E; [|done].
  intros _. by eapply decode_item_shape.
Qed.

Lemma ticktock_items_decoded :
  ∃ rs, crate_items "ticktock" = Some rs ∧ mapM decode_item rs = Some ticktock_items.
Proof. eexists. split; vm_compute; reflexivity. Qed.

Lemma forallb_Forall_bool {A : Type} (f : A → bool) (P : A → Prop) (l : list A) :
  (∀ x, f x = true → P x) → forallb f l = true → Forall P l.
Proof.
  intros HP. induction l as [|x l IH]; simpl; [constructor|].
  intros [Hx Hl]%andb_true_iff. constructor; auto.
Qed.

(* --------------------------------------------------------------------- *)
(** ** The shape of the index *)
(* --------------------------------------------------------------------- *)

(** C1: the search index maps a crate name to a document object that holds
    a free-text description and a sequence of item records; every item
    record of [searchIndex["ticktock"].items] is a 6-tuple of a numeric kind
    code, three strings (name, path, description), a parent index that is
    null or a number, and type-signature metadata that is null or an
    object. *)
Theorem C1_index_shape :
  ∃ fs its,
    searchIndex = Some (JObj fs) ∧
    Forall (λ kv, document_shape kv.2) fs ∧
    map fst fs = ["ticktock"] ∧
    crate_doc "ticktock" = Some "Timing module for frame-based applications" ∧
    crate_items "ticktock" = Some its ∧
    length its = 21%nat ∧
    Forall item_shape its.
Proof.
  assert (Forall item_shape Literal.items) as Hitems.
  { apply forallb_Forall_bool with (f := is_item_record).
    - apply is_item_record_shape.
    - vm_compute. reflexivity. }
  exists [("ticktock", Literal.ticktock)], Literal.items.
  split; [vm_compute; reflexivity|].
  split.
  { constructor; [|constructor]. exists Literal.doc, Literal.items.
    repeat split; try reflexivity. exact Hitems. }
  split; [reflexivity|].
  split; [vm_compute; reflexivity|].
  split; [vm_compute; reflexivity|].
  split; [reflexivity|exact Hitems].
Qed.

(** C9: in every item record the parent index is present exactly when the
    kind code is 11 (a method), and a parent index that is present lies
    between 0 and 3 and selects one of the four structs of the paths list. *)
Theorem C9_parent_index (it : item) :
  it ∈ ticktock_items →
  (parent it ≠ None ↔ kind it = KIND_METHOD) ∧
  (∀ i, parent it = Some i →
        (0 ≤ i ≤ 3)%Z ∧
        ∃ n, resolve_parent ticktock_paths i = Some (KIND_STRUCT, n) ∧
             n ∈ struct_names).
Proof.
  intros Hin. item_cases Hin; simpl; (split; [split; intros; done|]);
    intros i [= <-]; (split; [lia|]); eexists;
    (split; [vm_compute; reflexivity|]); unfold struct_names; list_member.
Qed.

Lemma C9_parent_index_witness :
  clock_iter ∈ ticktock_items ∧
  (parent clock_iter ≠ None ↔ kind clock_iter = KIND_METHOD) ∧
  (∀ i, parent clock_iter = Some i →
        (0 ≤ i ≤ 3)%Z ∧
        ∃ n, resolve_parent ticktock_paths i = Some (KIND_STRUCT, n) ∧
             n ∈ struct_names).
Proof.
  assert (clock_iter ∈ ticktock_items) as Hin.
  { item_member. }
  split; [exact Hin | exact (C9_parent_index clock_iter Hin)].
Defined.

(** C10: every record named [new] or [new_with_start_time] has a signature
    whose first input type is [duration] and whose output type is the
    lower-case name of the struct its parent index selects, [Clock] or
    [Timer]. *)
Theorem C10_constructor_signatures (it : item) :
  it ∈ ticktock_items →
  name it ∈ ["new"; "new_with_start_time"] →
  ∃ fs ins out s,
    search_type it = Some fs ∧
    sig_inputs fs = Some ("duration" :: ins) ∧
    sig_output fs = Some out ∧
    parent_name ticktock_paths it = Some s ∧
    s ∈ ["Clock"; "Timer"] ∧
    out = to_lower s.
Proof.
  intros Hin Hname.
  item_cases Hin; simpl in Hname;
    try (by not_listed Hname);
    do 4 eexists; (split; [reflexivity|]);
    (split; [vm_compute; reflexivity|]);
    (split; [vm_compute; reflexivity|]);
    (split; [vm_compute; reflexivity|]);
    (split; [list_member | vm_compute; reflexivity]).
Qed.

Lemma C10_constructor_signatures_witness :
  timer_new ∈ ticktock_items ∧
  name timer_new ∈ ["new"; "new_with_start_time"] ∧
  ∃ fs ins out s,
    search_type timer_new = Some fs ∧
    sig_inputs fs = Some ("duration" :: ins) ∧
    sig_output fs = Some out ∧
    parent_name ticktock_paths timer_new = Some s ∧
    s ∈ ["Clock"; "Timer"] ∧
    out = to_lower s.
Proof.
  assert (timer_new ∈ ticktock_items) as Hin by item_member.
  assert (name timer_new ∈ ["new"; "new_with_start_time"]) as Hname
    by (simpl; list_member).
  split; [exact Hin|]. split; [exact Hname|].
  exact (C10_constructor_signatures timer_new Hin Hname).
Defined.

(* --------------------------------------------------------------------- *)
(** ** Structs, methods and their summaries *)
(* --------------------------------------------------------------------- *)

(** C4: [Clock], [ClockIter], [ClockIterRelative] and [Timer] each occur as
    a struct record (kind code 3) among the items and as an entry of the
    paths list, and the paths list holds these four entries and no other. *)
Theorem C4_struct_types :
  crate_paths "ticktock"
  = Some [ JArr [JNum 3; JStr "Clock"]; JArr [JNum 3; JStr "ClockIter"];
           JArr [JNum 3; JStr "ClockIterRelative"]; JArr [JNum 3; JStr "Timer"] ] ∧
  ticktock_paths = map (λ n, (KIND_STRUCT, n)) struct_names ∧
  Forall (λ n, (∃ it, it ∈ ticktock_items ∧ kind it = KIND_STRUCT ∧ name it = n) ∧
               (KIND_STRUCT, n) ∈ ticktock_paths)
         struct_names.
Proof.
  split; [vm_compute; reflexivity|].
  assert (ticktock_paths = map (λ n, (KIND_STRUCT, n)) struct_names) as Hp
    by (vm_compute; reflexivity).
  split; [exact Hp|].
  rewrite Hp. unfold struct_names, KIND_STRUCT.
  constructor; [struct_case (Item 3 "Clock" "ticktock::clock" "Clock structure." None None)|].
  constructor; [struct_case (Item 3 "ClockIter" "" "A clock iterator" None None)|].
  constructor; [struct_case clock_iter_relative|].
  constructor; [struct_case (Item 3 "Timer" "ticktock::timer" "Interval-timer" None None)|].
  constructor.
Qed.

(** C6: the index holds a method [wait_until_tick] documented as "Waits for
    the next clock tick.", a struct [ClockIterRelative] documented as like
    [ClockIter] but returning a relative time instead, and a method
    [has_fired] of [Timer] documented as returning true if the timer has
    fired since the last time passed to [reset()]. *)
Theorem C6_doc_strings :
  (∃ it, it ∈ ticktock_items ∧ kind it = KIND_METHOD ∧
         name it = "wait_until_tick" ∧
         desc it = "Waits for the next clock tick.") ∧
  (∃ it, it ∈ ticktock_items ∧ kind it = KIND_STRUCT ∧
         name it = "ClockIterRelative" ∧
         desc it = "Similar to `ClockIter`, but returns a relative time instead.") ∧
  (∃ it, it ∈ ticktock_items ∧ kind it = KIND_METHOD ∧
         name it = "has_fired" ∧
         parent_name ticktock_paths it = Some "Timer" ∧
         desc it = "Returns true if the timer has fired since the last time passed to"
                   +:+ Literal.nl +:+ "`reset()`.").
Proof.
  split; [|split].
  - exists clock_wait_until_tick. split; [item_member | done].
  - exists clock_iter_relative. split; [item_member | done].
  - exists timer_has_fired. split; [item_member|].
    repeat split; vm_compute; reflexivity.
Qed.

(** C2, as the index has it: the description of a record holds no newline,
    except for the records [synced] and [has_fired], whose summaries run
    over two lines and hold exactly one. *)
Theorem C2_summary_lines (it : item) :
  it ∈ ticktock_items →
  count_newlines (desc it)
  = if bool_decide (name it ∈ ["synced"; "has_fired"]) then 1%nat else 0%nat.
Proof.
  intros Hin. item_cases Hin; vm_compute; reflexivity.
Qed.

Lemma C2_summary_lines_witness :
  clock_new ∈ ticktock_items ∧
  count_newlines (desc clock_new)
  = if bool_decide (name clock_new ∈ ["synced"; "has_fired"]) then 1%nat else 0%nat.
Proof.
  assert (clock_new ∈ ticktock_items) as Hin by item_member.
  split; [exact Hin | exact (C2_summary_lines clock_new Hin)].
Defined.

(** C2 as stated fails: the summary of [synced] holds a newline. *)
Lemma C2_counterexample :
  clock_synced ∈ ticktock_items ∧
  count_newlines (desc clock_synced) = 1%nat ∧
  ¬ (∀ it, it ∈ ticktock_items → one_line (desc it)).
Proof.
  assert (clock_synced ∈ ticktock_items) as Hin by item_member.
  split; [exact Hin|]. split; [vm_compute; reflexivity|].
  intros H. specialize (H clock_synced Hin). vm_compute in H. discriminate H.
Qed.

(* --------------------------------------------------------------------- *)
(** ** The README sample *)
(* --------------------------------------------------------------------- *)

(** C5: the README holds one code sample, in Rust: a [for] loop that binds
    the pair [(tick, now)] and runs over [Clock::framerate(30.0).iter()],
    a clock set up for a frame rate of 30. *)
Theorem C5_readme_sample :
  ∃ b,
    code_blocks readme = [b] ∧
    language b = "rust" ∧
    body b = [ "// run with a constant framerate of 30 fps";
               "for (tick, now) in Clock::framerate(30.0).iter() {";
               "  // ...";
               "}" ] ∧
    for_loops b = [ForLoop "(tick, now)" "Clock::framerate(30.0).iter()"].
Proof.
  eexists. split; [vm_compute; reflexivity|].
  repeat split; vm_compute; reflexivity.
Qed.

(** C3, as the index has it: the sample calls [framerate] and [iter]; [iter]
    is a documented method of [Clock] in the index, and [framerate] is the
    name of no item record (nor does the word occur in any string of the
    crate's document). *)
Theorem C3_readme_methods :
  readme_calls = ["framerate"; "iter"] ∧
  (∃ it, it ∈ ticktock_items ∧ name it = "iter" ∧ kind it = KIND_METHOD ∧
         parent_name ticktock_paths it = Some "Clock" ∧
         desc it = "Creates a clock iterator.") ∧
  Forall (λ it, name it ≠ "framerate") ticktock_items ∧
  (∃ d, crate "ticktock" = Some d ∧ json_any (mentions "framerate") d = false).
Proof.
  split; [vm_compute; reflexivity|]. split; [|split].
  - exists clock_iter. split; [item_member|].
    repeat split; vm_compute; reflexivity.
  - apply Forall_forall. intros it Hin. item_cases Hin; simpl; discriminate.
  - eexists. split; vm_compute; reflexivity.
Qed.

(** C3 as stated fails: the sample calls [framerate], and no item record
    has that name. *)
Lemma C3_counterexample :
  "framerate" ∈ readme_calls ∧
  ¬ (∀ m, m ∈ readme_calls → ∃ it, it ∈ ticktock_items ∧ name it = m).
Proof.
  assert ("framerate" ∈ readme_calls) as Hm.
  { replace readme_calls with ["framerate"; "iter"] by (vm_compute; reflexivity).
    list_member. }
  split; [exact Hm|].
  intros H. destruct (H "framerate" Hm) as (it & Hin & Hname).
  item_cases Hin; simpl in Hname; discriminate Hname.
Qed.

(* --------------------------------------------------------------------- *)
(** ** The script *)
(* --------------------------------------------------------------------- *)

(** C7: the statement that follows the assignments to [searchIndex] is the
    call [initSearch(searchIndex)], and it is the only one.  Wherever the
    script is loaded with [initSearch] a function of the page, and whatever
    that function does, the script makes exactly one call: of that function,
    with one argument, the object [searchIndex] denotes, in the very store
    the assignments leave, where the object is the built index; how the
    script ends is how the callee ends. *)
Theorem C7_index_handed_to_search (page : host) (st : store) (g : fid) :
  env st !! "initSearch" = Some (BFun g) →
  "searchIndex" ∉ lexical st →
  search_index_js = index_assignments ++ [SCall "initSearch" ["searchIndex"]] ∧
  after_assignments "searchIndex" search_index_js
  = [SCall "initSearch" ["searchIndex"]] ∧
  ∃ (l : loc) (at_call : store),
    run page index_assignments st = Outcome [] (Ok at_call) ∧
    trace (run page search_index_js st) = [CallEvent g [BRef l] at_call] ∧
    l = next st ∧
    env at_call !! "searchIndex" = Some (BRef l) ∧
    heap at_call !! l = Some (JObj [("ticktock", Literal.ticktock)]) ∧
    res (run page search_index_js st) = page g [BRef l] at_call.
Proof.
  intros Hinit Hlex.
  split; [reflexivity|]. split; [vm_compute; reflexivity|].
  exists (next st), (handed st).
  split; [by apply run_assignments|].
  rewrite run_script, Hinit.
  destruct (decide ("searchIndex" ∈ lexical st)) as [Hin|_]; [done|].
  split; [reflexivity|]. split; [reflexivity|].
  split; [simpl; apply lookup_insert_eq|].
  split; [simpl; apply lookup_insert_eq | reflexivity].
Qed.

Lemma C7_index_handed_to_search_witness :
  env page_with_other_crate !! "initSearch" = Some (BFun "initSearch") ∧
  ("searchIndex" ∉ lexical page_with_other_crate) ∧
  search_index_js = index_assignments ++ [SCall "initSearch" ["searchIndex"]] ∧
  after_assignments "searchIndex" search_index_js
  = [SCall "initSearch" ["searchIndex"]] ∧
  ∃ (l : loc) (at_call : store),
    run returns_at_once index_assignments page_with_other_crate
    = Outcome [] (Ok at_call) ∧
    trace (run returns_at_once search_index_js page_with_other_crate)
    = [CallEvent "initSearch" [BRef l] at_call] ∧
    l = next page_with_other_crate ∧
    env at_call !! "searchIndex" = Some (BRef l) ∧
    heap at_call !! l = Some (JObj [("ticktock", Literal.ticktock)]) ∧
    res (run returns_at_once search_index_js page_with_other_crate)
    = returns_at_once "initSearch" [BRef l] at_call.
Proof.
  assert (env page_with_other_crate !! "initSearch" = Some (BFun "initSearch"))
    as Hinit by (vm_compute; reflexivity).
  assert ("searchIndex" ∉ lexical page_with_other_crate) as Hlex
    by (unfold page_with_other_crate; simpl; set_solver).
  split; [exact Hinit|]. split; [exact Hlex|].
  exact (C7_index_handed_to_search returns_at_once page_with_other_crate
           "initSearch" Hinit Hlex).
Defined.

(* --------------------------------------------------------------------- *)
(** ** Data only *)
(* --------------------------------------------------------------------- *)

(** C8, as the file has it: the file is the two assignments that build
    [searchIndex], the call of [initSearch], and the lines of the README,
    and nothing else; every item record carries a kind code, name, path and
    description strings and a parent index, all flat, and has no list of
    item records nested in it; the one component that is not flat is the
    type signature, an object of type names. *)
Theorem C8_data_only :
  map role search_index_js
  = [DataAssignment "searchIndex"; DataAssignment "searchIndex";
     HostCall "initSearch"] ∧
  omap code_of source_file = search_index_js ∧
  omap prose_of source_file = readme ∧
  length source_file = (length search_index_js + length readme)%nat ∧
  ∃ its, crate_items "ticktock" = Some its ∧ Forall plain_record its.
Proof.
  split; [reflexivity|]. split; [reflexivity|]. split; [reflexivity|].
  split; [reflexivity|].
  exists Literal.items. split; [vm_compute; reflexivity|].
  unfold Literal.items.
  repeat (apply Forall_cons_2; [plain_record_case|]).
  apply Forall_nil_2.
Qed.

(** C8 as stated fails: the record of the clock's [new] carries a type
    signature, an object with a list inside, which is not a flat string.
    [flat_components] asks less than that sentence does (it lets numbers and
    null pass next to strings) and fails all the same. *)
Lemma C8_counterexample :
  ∃ its r c,
    crate_items "ticktock" = Some its ∧
    its !! 4%nat = Some r ∧
    decode_item r = Some clock_new ∧
    components r !! 5%nat = Some c ∧
    c = Literal.fn ["duration"] "clock" ∧
    is_string c = false ∧
    flat c = false ∧
    ¬ Forall flat_components its.
Proof.
  exists Literal.items. do 2 eexists.
  split; [vm_compute; reflexivity|].
  split; [reflexivity|]. split; [reflexivity|]. split; [reflexivity|].
  split; [reflexivity|]. split; [reflexivity|]. split; [reflexivity|].
  intros H. rewrite Forall_forall in H.
  assert (flat_components
            (JArr [JNum 11; JStr "new"; JStr ""; JStr "Creates a new clock.";
                   JNum 0; Literal.fn ["duration"] "clock"])) as Hflat.
  { apply H. unfold Literal.items. list_member. }
  unfold flat_components in Hflat. rewrite Forall_forall in Hflat.
  specialize (Hflat (Literal.fn ["duration"] "clock")).
  assert (flat (Literal.fn ["duration"] "clock") = true) as Hc.
  { apply Hflat. simpl. list_member. }
  vm_compute in Hc. discriminate Hc.
Qed.

(* ===================================================================== *)
(** * Further properties of the script and of the index *)
(* ===================================================================== *)

(* --------------------------------------------------------------------- *)
(** ** Loading the script on any page *)
(* --------------------------------------------------------------------- *)



(** X2: the script itself touches nothing but [searchIndex].  Loaded where
    [initSearch] is a function of the page (the next location being free),
    it makes its one call in a store in which [searchIndex] denotes a new
    object, exactly the built index (an earlier entry is not kept), every
    other variable is bound as before, and every object that existed is as
    it was; what comes after is the callee's doing. *)
Theorem script_on_any_page (page : host) (st : store) (g : fid) :
  env st !! "initSearch" = Some (BFun g) →
  "searchIndex" ∉ lexical st →
  heap st !! next st = None →
  ∃ at_call,
    run page search_index_js st
    = Outcome [CallEvent g [BRef (next st)] at_call]
              (page g [BRef (next st)] at_call) ∧
    deref "searchIndex" at_call = Some built_index ∧
    (∀ x, x ≠ "searchIndex" → env at_call !! x = env st !! x) ∧
    (∀ l o, heap st !! l = Some o → heap at_call !! l = Some o) ∧
    lexical at_call = lexical st.
Proof.
  intros Hinit Hlex Hfree. exists (handed st).
  split; [|split; [|split; [|split]]].
  - rewrite run_script, Hinit.
    by destruct (decide ("searchIndex" ∈ lexical st)).
  - unfold deref. simpl. rewrite lookup_insert_eq. apply lookup_insert_eq.
  - intros x Hx. simpl. by rewrite lookup_insert_ne.
  - intros l o Hl. simpl. rewrite lookup_insert_ne; [done|].
    intros <-. congruence.
  - reflexivity.
Qed.

Lemma script_on_any_page_witness :
  env page_with_other_crate !! "initSearch" = Some (BFun "initSearch") ∧
  ("searchIndex" ∉ lexical page_with_other_crate) ∧
  heap page_with_other_crate !! next page_with_other_crate = None ∧
  ∃ at_call,
    run returns_at_once search_index_js page_with_other_crate
    = Outcome [CallEvent "initSearch" [BRef (next page_with_other_crate)] at_call]
              (returns_at_once "initSearch"
                 [BRef (next page_with_other_crate)] at_call) ∧
    deref "searchIndex" at_call = Some built_index ∧
    (∀ x, x ≠ "searchIndex" →
          env at_call !! x = env page_with_other_crate !! x) ∧
    (∀ l o, heap page_with_other_crate !! l = Some o →
            heap at_call !! l = Some o) ∧
    lexical at_call = lexical page_with_other_crate.
Proof.
  assert (env page_with_other_crate !! "initSearch" = Some (BFun "initSearch"))
    as Hinit by (vm_compute; reflexivity).
  assert ("searchIndex" ∉ lexical page_with_other_crate) as Hlex
    by (unfold page_with_other_crate; simpl; set_solver).
  assert (heap page_with_other_crate !! next page_with_other_crate = None)
    as Hfree by (vm_compute; reflexivity).
  split; [exact Hinit|]. split; [exact Hlex|]. split; [exact Hfree|].
  exact (script_on_any_page returns_at_once page_with_other_crate
           "initSearch" Hinit Hlex Hfree).
Defined.

(** X3: let [initSearch] be a function of the page that returns and leaves
    itself bound and [searchIndex] free of a lexical declaration (nothing
    else is asked of it: it may change any object).  Then loading the script
    [n] times in a row succeeds and makes [n] calls, each of that function on
    an object that is, when the call is made, the built index and what
    [searchIndex] denotes: every load builds the index anew. *)
Theorem script_loaded_repeatedly (page : host) (g : fid) (n : nat) (st : store) :
  keeps_page page g →
  env st !! "initSearch" = Some (BFun g) →
  "searchIndex" ∉ lexical st →
  ∃ st' evs,
    run_times page search_index_js n st = Outcome evs (Ok st') ∧
    length evs = n ∧
    Forall (index_call g) evs.
Proof.
  intros Hkeep. revert st. induction n as [|n IH]; intros st Hinit Hlex.
  - exists st, []. repeat split. constructor.
  - destruct (Hkeep [BRef (next st)] (handed st)) as (st1 & Hret & Hinit1 & Hlex1).
    { simpl. by rewrite lookup_insert_ne. }
    { exact Hlex. }
    destruct (IH st1 Hinit1 Hlex1) as (st' & evs & Hrun & Hlen & Hev).
    exists st', (CallEvent g [BRef (next st)] (handed st) :: evs).
    cbn [run_times]. rewrite run_script, Hinit.
    destruct (decide ("searchIndex" ∈ lexical st)) as [Hin|_]; [done|].
    rewrite Hret. unfold mbind, outcome_bind. cbn [res trace].
    rewrite Hrun. cbn [res trace app].
    split; [reflexivity|]. split; [simpl; by rewrite Hlen|].
    constructor; [|exact Hev].
    split; [reflexivity|]. exists (next st).
    split; [reflexivity|]. simpl. split; apply lookup_insert_eq.
Qed.

Lemma script_loaded_repeatedly_witness :
  keeps_page returns_at_once "initSearch" ∧
  env browser_page !! "initSearch" = Some (BFun "initSearch") ∧
  ("searchIndex" ∉ lexical browser_page) ∧
  ∃ st' evs,
    run_times returns_at_once search_index_js 2 browser_page
    = Outcome evs (Ok st') ∧
    length evs = 2%nat ∧
    Forall (index_call "initSearch") evs.
Proof.
  assert (keeps_page returns_at_once "initSearch") as Hkeep.
  { intros bs st Hinit Hlex. exists st. by repeat split. }
  assert (env browser_page !! "initSearch" = Some (BFun "initSearch"))
    as Hinit by (vm_compute; reflexivity).
  assert ("searchIndex" ∉ lexical browser_page) as Hlex
    by (unfold browser_page; simpl; set_solver).
  split; [exact Hkeep|]. split; [exact Hinit|]. split; [exact Hlex|].
  exact (script_loaded_repeatedly returns_at_once "initSearch" 2 browser_page
           Hkeep Hinit Hlex).
Defined.

(* --------------------------------------------------------------------- *)
(** ** The records, read back and compared *)
(* --------------------------------------------------------------------- *)

Lemma decode_encode_item (it : item) : decode_item (encode_item it) = Some it.
Proof. by destruct it as [k n p d [i|] [fs|]]. Qed.

Lemma encode_decode_item (r : json) (it : item) :
  decode_item r = Some it → encode_item it = r.
Proof.
  unfold decode_item.
  destruct r as [| | |l|]; try done.
  destruct l as [|k [|n [|p [|d [|pi [|t [|]]]]]]]; try done.
  destruct k as [|k| | |]; try done.
  destruct n as [| |n| |]; try done.
  destruct p as [| |p| |]; try done.
  destruct d as [| |d| |]; try done.
  simpl.
  destruct pi as [|i| | |]; try done; destruct t as [| | | |fs]; try done;
    simpl; by intros [= <-].
Qed.

Lemma mapM_encode_decode (rs : list json) (its : list item) :
  mapM decode_item rs = Some its → map encode_item its = rs.
Proof.
  intros H. apply mapM_Some_1 in H.
  induction H as [|r it rs its Hr _ IH]; simpl; [done|].
  by rewrite (encode_decode_item r it Hr), IH.
Qed.

(** X4: nothing of an item record lies outside its six components: writing
    the decoded records back as 6-tuples gives the item list of the literal,
    record for record. *)
Theorem items_read_back :
  ∃ rs, crate_items "ticktock" = Some rs ∧
        map encode_item ticktock_items = rs ∧
        mapM decode_item (map encode_item ticktock_items) = Some ticktock_items.
Proof.
  destruct ticktock_items_decoded as (rs & Hrs & Hdec).
  exists rs. split; [exact Hrs|].
  pose proof (mapM_encode_decode rs ticktock_items Hdec) as Henc.
  split; [exact Henc|]. by rewrite Henc.
Qed.

(** X5: a record is told apart by its parent and its name: no two records of
    the list agree on both.  The name alone does not tell them apart: [new],
    [new_with_start_time] and [next] each occur twice, every other name
    once. *)
Theorem parent_and_name_identify :
  NoDup (map (λ it, (parent it, name it)) ticktock_items) ∧
  Forall (λ it, occurrences (name it) ticktock_items
                = if bool_decide (name it ∈ ["new"; "new_with_start_time"; "next"])
                  then 2%nat else 1%nat)
         ticktock_items ∧
  occurrences "new" ticktock_items = 2%nat ∧
  occurrences "new_with_start_time" ticktock_items = 2%nat ∧
  occurrences "next" ticktock_items = 2%nat.
Proof.
  split; [apply (bool_decide_unpack _); vm_compute; exact I|].
  split; [|repeat split; vm_compute; reflexivity].
  apply Forall_forall. intros it Hin.
  item_cases Hin; vm_compute; reflexivity.
Qed.

(** X6: the paths list is the list of the struct records of the item list,
    kind and name, in the order in which they occur there. *)
Theorem paths_are_the_structs :
  map (λ it, (kind it, name it))
      (filter (λ it, kind it = KIND_STRUCT) ticktock_items)
  = ticktock_paths.
Proof. vm_compute. reflexivity. Qed.

(** X7: a method record comes later in the list than the struct record of
    its parent. *)
Theorem method_follows_its_struct (i : nat) (it : item) :
  ticktock_items !! i = Some it →
  kind it = KIND_METHOD →
  ∃ (j : nat) (s : item) (n : string),
    parent_name ticktock_paths it = Some n ∧
    ticktock_items !! j = Some s ∧
    kind s = KIND_STRUCT ∧ name s = n ∧
    (j < i)%nat.
Proof.
  intros Hi Hk.
  assert (∃ j s, list_find (λ s, kind s = KIND_STRUCT ∧
                                 Some (name s) = parent_name ticktock_paths it)
                           ticktock_items = Some (j, s) ∧ (j < i)%nat)
    as (j & s & Hfind & Hlt).
  { let l := eval vm_compute in ticktock_items in
    replace ticktock_items with l in Hi |- * by (vm_compute; reflexivity).
    do 21 (destruct i as [|i];
           [injection Hi as <-;
            first [discriminate Hk
                  | do 2 eexists; split; [vm_compute; reflexivity | lia]] |]).
    discriminate Hi. }
  apply list_find_Some in Hfind as (Hj & [Hs Hn] & _).
  exists j, s, (name s). by repeat split.
Qed.

Lemma method_follows_its_struct_witness :
  ticktock_items !! 11%nat
  = Some (Item 11 "next" "" "" (Some 1)
            (Some [("inputs", JArr [Literal.ty "clockiter"]);
                   ("output", Literal.ty "option")])) ∧
  ∃ (j : nat) (s : item) (n : string),
    parent_name ticktock_paths
      (Item 11 "next" "" "" (Some 1)
         (Some [("inputs", JArr [Literal.ty "clockiter"]);
                ("output", Literal.ty "option")])) = Some n ∧
    ticktock_items !! j = Some s ∧
    kind s = KIND_STRUCT ∧ name s = n ∧
    (j < 11)%nat.
Proof.
  assert (ticktock_items !! 11%nat
          = Some (Item 11 "next" "" "" (Some 1)
                    (Some [("inputs", JArr [Literal.ty "clockiter"]);
                           ("output", Literal.ty "option")]))) as Hi
    by (vm_compute; reflexivity).
  split; [exact Hi|].
  exact (method_follows_its_struct 11 _ Hi eq_refl).
Defined.

(* --------------------------------------------------------------------- *)
(** ** Signatures *)
(* --------------------------------------------------------------------- *)

(** X8: a record has no signature exactly when it is not a method or is the
    method [wait_until_tick]. *)
Theorem signature_presence (it : item) :
  it ∈ ticktock_items →
  (search_type it = None ↔ kind it ≠ KIND_METHOD ∨ name it = "wait_until_tick").
Proof.
  intros Hin. item_cases Hin; simpl;
    (split;
     [ intros Hn;
       first [discriminate Hn | left; by intros [=] | right; reflexivity]
     | intros [Hk|Hnm];
       first [reflexivity | by exfalso; apply Hk | discriminate Hnm] ]).
Qed.

Lemma signature_presence_witness :
  clock_wait_until_tick ∈ ticktock_items ∧
  (search_type clock_wait_until_tick = None ↔
   kind clock_wait_until_tick ≠ KIND_METHOD ∨
   name clock_wait_until_tick = "wait_until_tick").
Proof.
  assert (clock_wait_until_tick ∈ ticktock_items) as Hin by item_member.
  split; [exact Hin | exact (signature_presence clock_wait_until_tick Hin)].
Defined.

(** X9: in a record that has a signature and is not a constructor ([new],
    [new_with_start_time]), the first input type is the receiver: the
    lower-case name of the struct the parent index selects. *)
Theorem method_receiver (it : item) :
  it ∈ ticktock_items →
  is_Some (search_type it) →
  is_constructor it = false →
  ∃ s, parent_name ticktock_paths it = Some s ∧
       receiver it = Some (to_lower s).
Proof.
  intros Hin Hsig Hc.
  item_cases Hin;
    try (by destruct Hsig as [? [=]]);
    try (vm_compute in Hc; discriminate Hc);
    eexists; split; vm_compute; reflexivity.
Qed.

Lemma method_receiver_witness :
  timer_has_fired ∈ ticktock_items ∧
  is_Some (search_type timer_has_fired) ∧
  is_constructor timer_has_fired = false ∧
  ∃ s, parent_name ticktock_paths timer_has_fired = Some s ∧
       receiver timer_has_fired = Some (to_lower s).
Proof.
  assert (timer_has_fired ∈ ticktock_items) as Hin by item_member.
  assert (is_Some (search_type timer_has_fired)) as Hsig by (simpl; eauto).
  assert (is_constructor timer_has_fired = false) as Hc
    by (vm_compute; reflexivity).
  split; [exact Hin|]. split; [exact Hsig|]. split; [exact Hc|].
  exact (method_receiver timer_has_fired Hin Hsig Hc).
Defined.

(** X10: every type name of every signature, input or output, is written
    in lower case. *)
Theorem signature_names_lowercase (it : item) (n : string) :
  it ∈ ticktock_items →
  n ∈ signature_names it →
  to_lower n = n.
Proof.
  intros Hin Hn.
  item_cases Hin;
    match type of Hn with
    | _ ∈ ?l => let l' := eval vm_compute in l in change l with l' in Hn
    end;
    repeat (apply elem_of_cons in Hn as [-> | Hn]);
    try (by apply elem_of_nil in Hn);
    vm_compute; reflexivity.
Qed.

Lemma signature_names_lowercase_witness :
  clock_iter ∈ ticktock_items ∧
  "clockiter" ∈ signature_names clock_iter ∧
  to_lower "clockiter" = "clockiter".
Proof.
  assert (clock_iter ∈ ticktock_items) as Hin by item_member.
  assert ("clockiter" ∈ signature_names clock_iter) as Hn.
  { change (signature_names clock_iter) with ["clock"; "clockiter"].
    list_member. }
  split; [exact Hin|]. split; [exact Hn|].
  exact (signature_names_lowercase clock_iter "clockiter" Hin Hn).
Defined.
